(** * basic_csv: one-shot CSV input and output (csv.hpp)

    A shallow embedding of the class [basic_csv<char>] of [csv.hpp] and
    of the parts of the C++ stream library it relies on, followed by the
    properties of the table operations, of the line parser and of
    [load] and [save].

    Conventions of the embedding:
    - [std::string] is [string], a character is [ascii];
    - [row_t] ([std::vector<string_t>]) is [list string] and [m_rows] is
      a list of rows; [size_t] values are [nat]: every count in the
      class is bounded by a container size or by a file length;
    - a member function that can throw returns an [outcome]: the value
      and the object after the call, or the exception together with the
      object as the call left it, or [Undefined] where the C++ standard
      gives the call no meaning (an access past the end of a vector);
    - an input stream is its buffer, its read position and its two state
      bits [eofbit] and [failbit]; [badbit] is never set, the medium is
      assumed not to fail once a file is open. *)

From Stdlib Require Import Ascii String DecimalString.
From stdpp Require Import gmap strings list.


(** ** Characters and strings *)

Definition newline : ascii := ascii_of_nat 10.
Definition dquote : ascii := ascii_of_nat 34.

(** [std::to_string] of an unsigned count: its decimal digits. *)
Definition to_string (n : nat) : string :=
  NilEmpty.string_of_uint (Nat.to_uint n).

Module Str.

(** [std::count(s.begin(), s.end(), c)]. *)
Fixpoint count (c : ascii) (s : string) : nat :=
  match s with
  | EmptyString => 0
  | String a s' => (if Ascii.eqb a c then 1 else 0) + count c s'
  end.

(** The characters of [s] from position [n] on. *)
Fixpoint drop (n : nat) (s : string) : string :=
  match n, s with
  | 0, _ => s
  | S _, EmptyString => EmptyString
  | S n', String _ s' => drop n' s'
  end.

(** Scan for [delim]: the characters before its first occurrence and
    whether it was found before the end of the input. *)
Fixpoint until (delim : ascii) (s : string) : string * bool :=
  match s with
  | EmptyString => (EmptyString, false)
  | String a s' =>
      if Ascii.eqb a delim then (EmptyString, true)
      else let '(w, found) := until delim s' in (String a w, found)
  end.

End Str.

(** ** Input streams ([std::ifstream], the read side of
       [std::basic_stringstream]) *)

Record istream := mk_istream {
  buf : string;      (* the characters of the file or of the string buffer *)
  gpos : nat;        (* the get position *)
  eofbit : bool;
  failbit : bool
}.

(** A stream positioned at the start of [s], with a clear state. *)
Definition open_on (s : string) : istream :=
  {| buf := s; gpos := 0; eofbit := false; failbit := false |}.

Definition good (strm : istream) : bool := negb (eofbit strm) && negb (failbit strm).

(** The characters not read yet. *)
Definition rest (strm : istream) : string := Str.drop (gpos strm) (buf strm).

(** [is.setstate(failbit)]. *)
Definition setstate_fail (strm : istream) : istream :=
  {| buf := buf strm; gpos := gpos strm; eofbit := eofbit strm; failbit := true |}.

(** [is.clear()]: every state bit is reset. *)
Definition clear_state (strm : istream) : istream :=
  {| buf := buf strm; gpos := gpos strm; eofbit := false; failbit := false |}.

(** [is.seekg(0, std::ios::beg)] (C++11): [eofbit] is cleared first;
    the position moves only when the stream has not failed. *)
Definition seekg_beg (strm : istream) : istream :=
  if failbit strm
  then {| buf := buf strm; gpos := gpos strm; eofbit := false; failbit := true |}
  else {| buf := buf strm; gpos := 0; eofbit := false; failbit := false |}.

(** [std::getline(is, str, delim)].  The sentry fails on a stream that
    is not good: [failbit] is set and [str] keeps its value.  Otherwise
    [str] is erased and receives the characters up to the next [delim],
    which is extracted and dropped; when the input ends first [eofbit]
    is set, and [failbit] too when nothing at all was extracted.  No
    line reaches [str.max_size()]. *)
Definition getline (strm : istream) (str : string) (delim : ascii)
  : istream * string :=
  if good strm then
    let '(w, found) := Str.until delim (rest strm) in
    if found then
      ({| buf := buf strm; gpos := gpos strm + String.length w + 1;
          eofbit := eofbit strm; failbit := failbit strm |}, w)
    else
      ({| buf := buf strm; gpos := gpos strm + String.length w;
          eofbit := true;
          failbit := bool_decide (String.length w = 0) |}, w)
  else (setstate_fail strm, str).

(** [std::count(std::istream_iterator<Ch>(is), std::istream_iterator<Ch>(), c)]
    with [skipws] unset: every remaining character is extracted and
    compared with [c]; the extraction that finds the end of the input
    sets [eofbit] and [failbit]. *)
Definition count_to_end (strm : istream) (c : ascii) : istream * nat :=
  ({| buf := buf strm; gpos := gpos strm + String.length (rest strm);
      eofbit := true; failbit := true |},
   Str.count c (rest strm)).

(** ** Outcomes of member functions *)

Record runtime_error := { what : string }.

Inductive outcome (S A : Type) : Type :=
  | Ret (a : A) (s : S)               (* normal return *)
  | Throw (e : runtime_error) (s : S) (* exception; [s] is the state left behind *)
  | Undefined.                        (* undefined behaviour *)
Arguments Ret {S A} a s.
Arguments Throw {S A} e s.
Arguments Undefined {S A}.

(** ** The table *)

Abbreviation row_t := (list string).

Record basic_csv := mk_csv {
  m_separator : ascii;
  m_header : row_t;
  m_rows : list row_t
}.

(** [basic_csv()] and [basic_csv(separator)]. *)
Definition basic_csv_default : basic_csv :=
  {| m_separator := ","%char; m_header := []; m_rows := [] |}.

Definition basic_csv_sep (separator : ascii) : basic_csv :=
  {| m_separator := separator; m_header := []; m_rows := [] |}.

(** [std::vector::clear]. *)
Definition vector_clear {A} (v : list A) : list A := [].

(** [reserve] only changes the capacity of [m_rows]. *)
Definition reserve (row_count : nat) (t : basic_csv) : basic_csv := t.

Definition clear (t : basic_csv) : basic_csv :=
  {| m_separator := m_separator t;
     m_header := vector_clear (m_header t);
     m_rows := vector_clear (vector_clear <$> m_rows t) |}.

Definition set_header (columns_names : row_t) (t : basic_csv) : basic_csv :=
  {| m_separator := m_separator t;
     m_header := columns_names;
     m_rows := m_rows t |}.

Definition header (t : basic_csv) : row_t := m_header t.

Definition rows (t : basic_csv) : list row_t := m_rows t.

(** [m_rows.push_back(r)]. *)
Definition push_back (r : row_t) (t : basic_csv) : basic_csv :=
  {| m_separator := m_separator t;
     m_header := m_header t;
     m_rows := m_rows t ++ [r] |}.

(** The text of the exception of [add_row]. *)
Definition add_row_what (reported expected : nat) : string :=
  "basic_csv::load: row has different size than header ( " +:+
  to_string reported +:+ " != " +:+ to_string expected +:+ " ).".

(** [add_row]: the size reported in the message is that of
    [m_rows.back()], which has no meaning on an empty [m_rows]. *)
Definition add_row (row : row_t) (t : basic_csv) : outcome basic_csv unit :=
  if decide (length row ≠ length (m_header t)) then
    match last (m_rows t) with
    | Some back => Throw {| what := add_row_what (length back) (length (m_header t)) |} t
    | None => Undefined
    end
  else Ret tt (push_back row t).

(** The text of the exception of [row]. *)
Definition row_what (idx : nat) : string :=
  "basic_csv::row: index (" +:+ to_string idx +:+ ") out of bounds.".

Definition row (idx : nat) (t : basic_csv) : outcome basic_csv row_t :=
  if decide (length (m_rows t) ≤ idx) then Throw {| what := row_what idx |} t
  else match m_rows t !! idx with
       | Some r => Ret r t
       | None => Undefined
       end.

(** ** Reading and writing one line *)

(** The parsing loop of [read_line]: for [col] from its value up to
    [column_count], [std::getline(line_ss, row[col], m_separator)].
    [n] is the number of columns still to be read. *)
Fixpoint read_fields (sep : ascii) (n col : nat) (line_ss : istream) (row : row_t)
  : row_t :=
  match n with
  | 0 => row
  | S n' =>
      let '(line_ss', field) := getline line_ss (row !!! col) sep in
      read_fields sep n' (S col) line_ss' (<[col := field]> row)
  end.

(** [read_line]: one line of [file] is copied into a string stream,
    which is then cut at the separator into a row created with
    [column_count] empty strings.  ([seekg] on the stream of an empty
    line succeeds here; a library in which it fails leaves the same
    row of empty strings.) *)
Definition read_line (sep : ascii) (file : istream) (column_count : nat)
  : istream * row_t :=
  let '(file', line) := getline file EmptyString newline in
  let line_ss := seekg_beg (open_on line) in
  let row := replicate column_count EmptyString in
  (file', read_fields sep column_count 0 line_ss row).

(** [write_line] on the text written so far.  [line[0]] has no meaning
    for an empty [line]: the result is [None] there.  The loop counter
    is an [int]; no row has more fields than an [int] counts. *)
Definition write_line (sep : ascii) (file : string) (line : row_t) : option string :=
  match line with
  | [] => None
  | first :: others =>
      let file := file +:+ first in
      let file := foldl (λ file field, file +:+ String sep field) file others in
      Some (file +:+ String newline EmptyString)
  end.

(** The loop of [save] over [m_rows]. *)
Fixpoint write_rows (sep : ascii) (file : string) (rs : list row_t) : option string :=
  match rs with
  | [] => Some file
  | r :: rs' =>
      match write_line sep file r with
      | Some file' => write_rows sep file' rs'
      | None => None
      end
  end.

(** ** Files *)

(** The files that can be opened for reading, with their bytes, and the
    paths at which no file can be created or truncated. *)
Record filesystem := mk_fs {
  files : gmap string string;
  write_protected : gset string
}.

(** [std::ifstream file(filename, in|binary)]: [None] when
    [file.is_open()] is false. *)
Definition ifstream_open (fs : filesystem) (filename : string) : option istream :=
  open_on <$> files fs !! filename.

(** Closing a [std::ofstream] opened with [out|binary] on [filename]
    after [text] was written to it. *)
Definition ofstream_close (fs : filesystem) (filename text : string) : filesystem :=
  {| files := <[filename := text]> (files fs);
     write_protected := write_protected fs |}.

(** ** load and save *)

Definition open_what (method filename : string) : string :=
  "basic_csv::" +:+ method +:+ ": could not open file " +:+
  String dquote filename +:+ String dquote ".".

Definition load_row_what (row reported expected : nat) : string :=
  "basic_csv::load: row[" +:+ to_string row +:+
  "] has different size than header ( " +:+
  to_string reported +:+ " != " +:+ to_string expected +:+ " ).".

(** The first pass of [load]: the number of newline characters of the
    whole file, then [file.clear()]. *)
Definition count_rows (file : istream) : istream * nat :=
  let '(file', row_count) := count_to_end file newline in
  (clear_state file', row_count).

(** The second pass of [load]: back at the beginning, the first line
    gives the number of columns. *)
Definition count_columns (sep : ascii) (file : istream) : istream * nat :=
  let file := seekg_beg file in
  let '(file', temp) := getline file EmptyString newline in
  (file',
   if decide (0 < String.length temp) then Str.count sep temp + 1 else 0).

(** The loop of [load] over the rows: [n] rows are still to be read and
    [row] is the loop counter. *)
Fixpoint load_rows (n row column_count : nat) (file : istream) (t : basic_csv)
  : outcome basic_csv unit :=
  match n with
  | 0 => Ret tt t
  | S n' =>
      let '(file', r) := read_line (m_separator t) file column_count in
      let t' := push_back r t in
      match last (m_rows t') with
      | Some back =>
          if decide (length back ≠ length (m_header t')) then
            Throw {| what := load_row_what row (length back) (length (m_header t')) |} t'
          else load_rows n' (S row) column_count file' t'
      | None => Undefined
      end
  end.

Definition load (fs : filesystem) (filename : string) (t : basic_csv)
  : outcome basic_csv unit :=
  match ifstream_open fs filename with
  | None => Throw {| what := open_what "load" filename |} t
  | Some file =>
      let '(file, row_count) := count_rows file in
      let '(file, column_count) := count_columns (m_separator t) file in
      let file := seekg_beg file in
      let '(file, hdr) := read_line (m_separator t) file column_count in
      let t := set_header hdr t in
      let t := reserve row_count t in
      load_rows row_count 0 column_count file t
  end.

Definition save (filename : string) (t : basic_csv) (fs : filesystem)
  : outcome filesystem unit :=
  if decide (filename ∈ write_protected fs) then
    Throw {| what := open_what "save" filename |} fs
  else
    match write_line (m_separator t) EmptyString (m_header t) with
    | Some file =>
        match write_rows (m_separator t) file (m_rows t) with
        | Some file' => Ret tt (ofstream_close fs filename file')
        | None => Undefined
        end
    | None => Undefined
    end.

(** ** Reference notions of the file format

    These follow the description of the format, not the code: the
    first line of a text, and the fields of a line. *)

(** The characters before the first newline, or the whole text when it
    holds no newline. *)
Fixpoint first_line (s : string) : string :=
  match s with
  | EmptyString => EmptyString
  | String a s' => if Ascii.eqb a newline then EmptyString else String a (first_line s')
  end.

(** The pieces of [s] between occurrences of [sep]; a text without
    [sep] is one piece. *)
Fixpoint split (sep : ascii) (s : string) : list string :=
  match s with
  | EmptyString => [EmptyString]
  | String a s' =>
      if Ascii.eqb a sep then EmptyString :: split sep s'
      else match split sep s' with
           | w :: ws => String a w :: ws
           | [] => [String a EmptyString]
           end
  end.

(** What a string stream still holds for [read_fields]: the pieces of
    its unread characters, or nothing once it is no longer good. *)
Definition pending (sep : ascii) (line_ss : istream) : list string :=
  if good line_ss then split sep (rest line_ss) else [].

(** ** The result of [load], as a function of the text

    [read_rows] lists the rows that the loop of [load] reads, and
    [parse] the header and the rows that [load] reads from a file that
    holds [content]: the same stream operations as in [load], without
    the table. *)

Fixpoint read_rows (sep : ascii) (n column_count : nat) (file : istream)
  : list row_t :=
  match n with
  | 0 => []
  | S n' =>
      let '(file', r) := read_line sep file column_count in
      r :: read_rows sep n' column_count file'
  end.

Definition parse (sep : ascii) (content : string) : row_t * list row_t :=
  let '(file, row_count) := count_rows (open_on content) in
  let '(file, column_count) := count_columns sep file in
  let file := seekg_beg file in
  let '(file, hdr) := read_line sep file column_count in
  (hdr, read_rows sep row_count column_count file).

(** The number of columns of a first line, in the words of the
    description of [load]. *)
Definition columns_of (sep : ascii) (line : string) : nat :=
  if decide (line = EmptyString) then 0 else Str.count sep line + 1.

(** ** The text of a table

    The characters [write_line] writes for a row after its first field,
    the line of a row without its newline, and the lines of a list of
    rows. *)

Fixpoint join_tail (sep : ascii) (others : row_t) : string :=
  match others with
  | [] => EmptyString
  | field :: others' => String sep (field +:+ join_tail sep others')
  end.

Definition join (sep : ascii) (line : row_t) : string :=
  match line with
  | [] => EmptyString
  | first :: others => first +:+ join_tail sep others
  end.

Fixpoint join_lines (sep : ascii) (rs : list row_t) : string :=
  match rs with
  | [] => EmptyString
  | r :: rs' => join sep r +:+ String newline (join_lines sep rs')
  end.

(** A field without separator and without newline. *)
Definition plain (sep : ascii) (field : string) : Prop :=
  Str.count sep field = 0 ∧ Str.count newline field = 0.

(** The tables of the file format: the separator is not the newline,
    there is a header, which is not a lone empty name, every row is as
    wide as the header and every field is plain. *)
Record storable (t : basic_csv) : Prop := {
  storable_separator : m_separator t ≠ newline;
  storable_header : m_header t ≠ [] ∧ m_header t ≠ [EmptyString];
  storable_names : Forall (plain (m_separator t)) (m_header t);
  storable_rows :
    Forall (λ r, length r = length (m_header t) ∧ Forall (plain (m_separator t)) r)
           (m_rows t)
}.

(** The text of a table: the line of the header, then the lines of the
    rows. *)
Definition text_of (t : basic_csv) : string :=
  join (m_separator t) (m_header t) +:+
  String newline (join_lines (m_separator t) (m_rows t)).

(** The same lines with a newline between them only: the last line is
    not ended by a newline. *)
Fixpoint unlines (sep : ascii) (rs : list row_t) : string :=
  match rs with
  | [] => EmptyString
  | r :: rs' =>
      match rs' with
      | [] => join sep r
      | _ :: _ => join sep r +:+ String newline (unlines sep rs')
      end
  end.

Definition text_open_end (t : basic_csv) : string :=
  unlines (m_separator t) (m_header t :: m_rows t).

(** ** Sample tables and files *)

Definition nl : string := String newline EmptyString.

Definition abc_table : basic_csv :=
  {| m_separator := ","%char;
     m_header := ["a"; "b"; "c"];
     m_rows := [["1"; "2"; "3"]; ["4"; "5"; "6"]] |}.

(** The text [save] writes for [abc_table]. *)
Definition abc_text : string :=
  "a,b,c" +:+ nl +:+ "1,2,3" +:+ nl +:+ "4,5,6" +:+ nl.

(** A header line and two data lines, each ended by a newline, and the
    same text without the last newline. *)
Definition xy_text : string := "x,y" +:+ nl +:+ "1,2" +:+ nl +:+ "3,4" +:+ nl.
Definition xy_text_open_end : string := "x,y" +:+ nl +:+ "1,2" +:+ nl +:+ "3,4".

(** The second data line has one field only. *)
Definition short_text : string := "x,y" +:+ nl +:+ "1,2" +:+ nl +:+ "3" +:+ nl.
Definition short_text_open_end : string := "x,y" +:+ nl +:+ "1,2" +:+ nl +:+ "3".

(** A file system that holds one file. *)
Definition one_file (filename content : string) : filesystem :=
  {| files := {[ filename := content ]}; write_protected := ∅ |}.

Definition no_file : filesystem := {| files := ∅; write_protected := ∅ |}.

(** * Properties *)

(** ** Table operations *)

Section table_operations.
Implicit Types (t : basic_csv) (r : row_t) (idx : nat).

Lemma add_row_match r t :
  length r = length (header t) →
  add_row r t = Ret tt (push_back r t).
Proof.
  unfold add_row, header. intros Hlen.
  destruct (decide (length r ≠ length (m_header t))); [congruence | done].
Qed.



Lemma rows_push_back r t : rows (push_back r t) = rows t ++ [r].
Proof. done. Qed.

End table_operations.

(** C4, at the input where the code departs from it: on a table that
    holds a header of two columns and no row yet, [add_row] of a row of
    one field does not throw: it reads [m_rows.back()] of an empty
    vector. *)
Theorem add_row_first_row_mismatch_undefined :
  add_row ["1"] (set_header ["a"; "b"] basic_csv_default) = Undefined.
Proof. reflexivity. Qed.

(** C5: [row idx] throws its out-of-bounds exception exactly when
    [idx] is at least the number of stored rows, and leaves the table
    as it was; for a smaller [idx] it returns the row stored at position
    [idx], counted from zero, the header not being one of the rows. *)
Theorem row_spec (t : basic_csv) (idx : nat) :
  (row idx t = Throw {| what := row_what idx |} t ↔ length (rows t) ≤ idx) ∧
  ((∃ r, row idx t = Ret r t ∧ rows t !! idx = Some r) ↔ idx < length (rows t)) ∧
  row idx t ≠ Undefined.
Proof.
  unfold row, rows. destruct (decide (length (m_rows t) ≤ idx)) as [Hge|Hlt].
  - split_and!; [done| |done].
    split; [intros (r & ? & _); done | lia].
  - destruct (lookup_lt_is_Some_2 (m_rows t) idx) as [r Hr]; [lia|].
    rewrite Hr. split_and!; [split; [done | lia] | | done].
    split; [lia | intros _; by exists r].
Qed.

(** C6: after [clear] the header and the rows are empty and the
    separator is the one the table had: the table is the one
    [basic_csv(separator)] constructs, whatever it held before. *)
Theorem clear_spec (t : basic_csv) :
  header (clear t) = [] ∧
  rows (clear t) = [] ∧
  m_separator (clear t) = m_separator t ∧
  clear t = basic_csv_sep (m_separator t).
Proof. by destruct t. Qed.



(** ** Strings and streams *)

Section strings.
Implicit Types (s w : string) (d : ascii).

Lemma drop_0 s : Str.drop 0 s = s.
Proof. by destruct s. Qed.

Lemma drop_add n m s : Str.drop (n + m) s = Str.drop m (Str.drop n s).
Proof.
  revert s. induction n as [|n IH]; intros s; simpl.
  - done.
  - destruct s; [by destruct m | apply IH].
Qed.

Lemma drop_length s : Str.drop (String.length s) s = EmptyString.
Proof. induction s; done. Qed.

Lemma until_found d s w :
  Str.until d s = (w, true) →
  split d s = w :: split d (Str.drop (String.length w + 1) s).
Proof.
  revert w. induction s as [|a s IH]; intros w; simpl; [done|].
  destruct (Ascii.eqb a d) eqn:Ha.
  - by intros [= <-].
  - destruct (Str.until d s) as [w' found] eqn:Hu. intros [= <- ->].
    by rewrite (IH w' eq_refl).
Qed.

Lemma until_not_found d s w :
  Str.until d s = (w, false) → split d s = [w] ∧ w = s.
Proof.
  revert w. induction s as [|a s IH]; intros w; simpl.
  - by intros [= <-].
  - destruct (Ascii.eqb a d) eqn:Ha; [done|].
    destruct (Str.until d s) as [w' found] eqn:Hu. intros [= <- ->].
    destruct (IH w' eq_refl) as [-> ->]. done.
Qed.

Lemma until_first_line s : (Str.until newline s).1 = first_line s.
Proof.
  induction s as [|a s IH]; simpl; [done|].
  destruct (Ascii.eqb a newline); [done|].
  destruct (Str.until newline s). simpl in *. by rewrite IH.
Qed.

Lemma split_length d s : length (split d s) = Str.count d s + 1.
Proof.
  induction s as [|a s IH]; simpl; [done|].
  destruct (Ascii.eqb a d); simpl; [by rewrite IH|].
  destruct (split d s); simpl in *; lia.
Qed.

End strings.

Section streams.
Implicit Types (strm : istream) (d : ascii).

Lemma pending_not_good d strm : good strm = false → pending d strm = [].
Proof. unfold pending. by intros ->. Qed.

Lemma pending_open_on d s : pending d (seekg_beg (open_on s)) = split d s.
Proof. done. Qed.

(** One [getline] on a string stream takes the first pending piece,
    or leaves the string as it was when nothing is pending. *)
Lemma getline_pending d strm str :
  let '(strm', field) := getline strm str d in
  match pending d strm with
  | [] => field = str ∧ pending d strm' = []
  | w :: ws => field = w ∧ pending d strm' = ws
  end.
Proof.
  unfold getline, pending. destruct (good strm) eqn:Hgood.
  - destruct (Str.until d (rest strm)) as [w found] eqn:Hu. destruct found.
    + apply until_found in Hu. rewrite Hu. split; [done|].
      apply andb_true_iff in Hgood as [He Hf].
      unfold good, rest. simpl. rewrite He, Hf. simpl.
      by rewrite <-Nat.add_assoc, drop_add.
    + apply until_not_found in Hu as [-> ->]. done.
  - split; [done|]. unfold good in *. simpl.
    by rewrite andb_false_r.
Qed.

End streams.

(** ** The line parser *)

Section read_line.
Variable sep : ascii.

Lemma read_fields_pending n : ∀ col line_ss (parsed : row_t),
  length parsed = col →
  read_fields sep n col line_ss (parsed ++ replicate n EmptyString) =
    parsed ++ resize n EmptyString (pending sep line_ss).
Proof.
  induction n as [|n IH]; intros col line_ss parsed Hcol.
  - simpl. by rewrite resize_0.
  - cbn [read_fields replicate].
    rewrite list_lookup_total_middle by done.
    pose proof (getline_pending sep line_ss EmptyString) as Hg.
    destruct (getline line_ss EmptyString sep) as [line_ss' field].
    rewrite insert_app_r_alt by lia.
    replace (col - length parsed) with 0 by lia.
    change (<[0:=field]> (EmptyString :: replicate n EmptyString))
      with (field :: replicate n EmptyString).
    rewrite (cons_middle field), (assoc_L (++)).
    rewrite (IH (S col)) by (rewrite length_app; simpl; lia).
    rewrite <-(assoc_L (++)). f_equal.
    destruct (pending sep line_ss) as [|w ws]; destruct Hg as [-> ->]; [|done].
    by rewrite !resize_nil.
Qed.

(** [read_line] returns the pieces of the line it extracts, cut or
    padded with empty strings to [column_count] fields. *)
Lemma read_line_resize file column_count :
  (read_line sep file column_count).2 =
    resize column_count EmptyString
      (split sep (getline file EmptyString newline).2).
Proof.
  unfold read_line. destruct (getline file EmptyString newline) as [file' line].
  simpl. rewrite <-pending_open_on.
  by rewrite (read_fields_pending column_count 0 _ []).
Qed.

Lemma read_line_length file column_count :
  length (read_line sep file column_count).2 = column_count.
Proof. by rewrite read_line_resize, length_resize. Qed.

End read_line.

(** ** load *)

Section load.
Implicit Types (fs : filesystem) (t : basic_csv) (file : istream).

Lemma read_rows_length sep n : ∀ column_count file,
  length (read_rows sep n column_count file) = n.
Proof.
  induction n as [|n IH]; intros cc file; simpl; [done|].
  destruct (read_line sep file cc). simpl. by rewrite IH.
Qed.

Lemma read_rows_width sep n : ∀ column_count file,
  Forall (λ r, length r = column_count) (read_rows sep n column_count file).
Proof.
  induction n as [|n IH]; intros cc file; simpl; [done|].
  pose proof (read_line_length sep file cc) as Hlen.
  destruct (read_line sep file cc) as [file' r]. by constructor.
Qed.

(** The loop of [load] never takes its error branch when the header
    has [column_count] fields: it appends the rows it reads. *)
Lemma load_rows_ret n : ∀ row column_count file t,
  length (m_header t) = column_count →
  load_rows n row column_count file t =
    Ret tt {| m_separator := m_separator t;
              m_header := m_header t;
              m_rows := m_rows t ++ read_rows (m_separator t) n column_count file |}.
Proof.
  induction n as [|n IH]; intros row cc file t Hhdr; simpl.
  - rewrite app_nil_r. by destruct t.
  - pose proof (read_line_length (m_separator t) file cc) as Hlen.
    destruct (read_line (m_separator t) file cc) as [file' r]. simpl in Hlen.
    rewrite last_snoc. rewrite decide_False by (intros Hne; congruence).
    rewrite IH by done. simpl. by rewrite <-(assoc_L (++)).
Qed.

Lemma load_not_open fs filename t :
  files fs !! filename = None →
  load fs filename t = Throw {| what := open_what "load" filename |} t.
Proof. unfold load, ifstream_open. by intros ->. Qed.

(** [load] of a file that can be opened returns; the header is
    replaced and the rows read are appended to the stored ones. *)
Lemma load_open fs filename content t :
  files fs !! filename = Some content →
  load fs filename t =
    Ret tt {| m_separator := m_separator t;
              m_header := (parse (m_separator t) content).1;
              m_rows := m_rows t ++ (parse (m_separator t) content).2 |}.
Proof.
  unfold load, ifstream_open, parse. intros ->.
  change (open_on <$> Some content) with (Some (open_on content)). cbv iota.
  destruct (count_rows (open_on content)) as [file row_count].
  destruct (count_columns (m_separator t) file) as [file1 cc].
  pose proof (read_line_length (m_separator t) (seekg_beg file1) cc) as Hlen.
  destruct (read_line (m_separator t) (seekg_beg file1) cc) as [file2 hdr].
  unfold reserve. by rewrite load_rows_ret.
Qed.

Lemma count_columns_first_line sep content :
  (count_columns sep (count_rows (open_on content)).1).2 =
    columns_of sep (first_line content).
Proof.
  unfold count_columns, count_rows, count_to_end, getline, columns_of. simpl.
  rewrite <-until_first_line.
  destruct (Str.until newline (rest _)) as [temp found] eqn:Hu.
  unfold rest in Hu. simpl in Hu. rewrite Hu. simpl.
  destruct found; simpl;
    destruct temp; simpl; by repeat case_decide; try lia.
Qed.

Lemma parse_width sep content :
  length (parse sep content).1 = columns_of sep (first_line content) ∧
  Forall (λ r, length r = columns_of sep (first_line content)) (parse sep content).2.
Proof.
  rewrite <-count_columns_first_line. unfold parse.
  destruct (count_rows (open_on content)) as [file row_count]. simpl.
  destruct (count_columns sep file) as [file1 cc]. simpl.
  pose proof (read_line_length sep (seekg_beg file1) cc) as Hlen.
  destruct (read_line sep (seekg_beg file1) cc) as [file2 hdr]. simpl.
  split; [done | apply read_rows_width].
Qed.

End load.

(** C1, at the input where the code departs from it: [save] writes the
    three lines of the table, each ended by a newline, and [load] of
    that file into a fresh table reads the header and then as many rows
    as the file has newlines: the two rows and a third one of three
    empty fields. *)
Theorem save_load_abc_extra_row :
  save "t.csv" abc_table no_file = Ret tt (one_file "t.csv" abc_text) ∧
  load (one_file "t.csv" abc_text) "t.csv" basic_csv_default =
    Ret tt {| m_separator := ","%char;
              m_header := ["a"; "b"; "c"];
              m_rows := [["1"; "2"; "3"]; ["4"; "5"; "6"];
                         [EmptyString; EmptyString; EmptyString]] |}.
Proof. split; reflexivity. Qed.

(** C2, at the input where the code departs from it: for the header
    line and the two data lines, each ended by a newline, [load] stores
    three rows, the last one made of two empty fields. *)
Theorem load_xy_extra_row :
  load (one_file "xy.csv" xy_text) "xy.csv" basic_csv_default =
    Ret tt {| m_separator := ","%char;
              m_header := ["x"; "y"];
              m_rows := [["1"; "2"]; ["3"; "4"]; [EmptyString; EmptyString]] |}.
Proof. reflexivity. Qed.

(** The same lines without a newline after the last one give the two
    rows exactly. *)
Lemma load_xy_open_end :
  load (one_file "xy.csv" xy_text_open_end) "xy.csv" basic_csv_default =
    Ret tt {| m_separator := ","%char;
              m_header := ["x"; "y"];
              m_rows := [["1"; "2"]; ["3"; "4"]] |}.
Proof. reflexivity. Qed.

(** C7, at the input where the code departs from it: [load] of a file
    whose second data line has one field where the header has two
    returns normally; the short line is stored with an empty second
    field. *)
Theorem load_short_line_returns :
  load (one_file "short.csv" short_text) "short.csv" basic_csv_default =
    Ret tt {| m_separator := ","%char;
              m_header := ["x"; "y"];
              m_rows := [["1"; "2"]; ["3"; EmptyString];
                         [EmptyString; EmptyString]] |} ∧
  load (one_file "short.csv" short_text_open_end) "short.csv" basic_csv_default =
    Ret tt {| m_separator := ","%char;
              m_header := ["x"; "y"];
              m_rows := [["1"; "2"]; ["3"; EmptyString]] |}.
Proof. split; reflexivity. Qed.

(** C3, at the input where the code departs from it: [load] assigns
    the header but never clears [m_rows].  On a table that holds the
    header [h] and the row [old], [load] of a file with the header
    [x,y] and two rows returns with the new header and three rows: the
    row [old] is still the first one, one field wide under a header of
    two columns, and the rows are not those a table just constructed
    holds after the same [load]. *)
Theorem load_keeps_old_rows :
  load (one_file "xy.csv" xy_text_open_end) "xy.csv"
       (mk_csv ","%char ["h"] [["old"]]) =
    Ret tt (mk_csv ","%char ["x"; "y"] [["old"]; ["1"; "2"]; ["3"; "4"]]) ∧
  load (one_file "xy.csv" xy_text_open_end) "xy.csv" (basic_csv_sep ","%char) =
    Ret tt (mk_csv ","%char ["x"; "y"] [["1"; "2"]; ["3"; "4"]]) ∧
  ¬ Forall (λ r, length r = length ["x"; "y"])
           [["old"]; ["1"; "2"]; ["3"; "4"]].
Proof.
  split_and!; [reflexivity | reflexivity |].
  intros Hwidth. apply Forall_cons in Hwidth as [Hold _]. discriminate Hold.
Qed.

(** Hence the rows after a [load] that returns are not, in general,
    the rows a table just constructed holds after the same [load]. *)
Lemma load_replaces_rows_counterexample :
  ¬ (∀ fs filename t t' fresh,
       load fs filename t = Ret tt t' →
       load fs filename (basic_csv_sep (m_separator t)) = Ret tt fresh →
       rows t' = rows fresh).
Proof.
  intros Hclaim.
  specialize (Hclaim (one_file "xy.csv" xy_text_open_end) "xy.csv"
                (mk_csv ","%char ["h"] [["old"]]) _ _ eq_refl eq_refl).
  discriminate Hclaim.
Qed.

(** C8: the number of columns [load] works with is that of the first
    line of the file alone: the number of separators in it plus one, or
    zero when that line is empty; the header [load] stores and every row
    it appends have that many fields. *)
Theorem load_column_count fs filename content t :
  files fs !! filename = Some content →
  (count_columns (m_separator t) (count_rows (open_on content)).1).2 =
    (if decide (first_line content = EmptyString) then 0
     else Str.count (m_separator t) (first_line content) + 1) ∧
  ∃ t', load fs filename t = Ret tt t' ∧
        length (header t') = columns_of (m_separator t) (first_line content) ∧
        Forall (λ r, length r = columns_of (m_separator t) (first_line content))
               (drop (length (rows t)) (rows t')).
Proof.
  intros Hfile. split; [apply count_columns_first_line|].
  eexists. split; [by apply load_open|].
  unfold header, rows. simpl. rewrite drop_app_length. apply parse_width.
Qed.

Lemma load_column_count_witness :
  (count_columns ","%char (count_rows (open_on xy_text)).1).2 = 2 ∧
  ∃ t', load (one_file "xy.csv" xy_text) "xy.csv" basic_csv_default = Ret tt t' ∧
        length (header t') = 2.
Proof.
  destruct (load_column_count (one_file "xy.csv" xy_text) "xy.csv" xy_text
              basic_csv_default) as (Hcc & t' & Hload & Hhdr & _); [reflexivity|].
  split; [exact Hcc | exists t'; split; [exact Hload | exact Hhdr]].
Defined.

(** C9: whatever the state of the stream and whatever [column_count],
    [read_line] returns a row of exactly [column_count] fields: the
    pieces of the line, and empty strings at the positions the line has
    no piece for.  In [load], where the header and the rows are read
    with one [column_count], the exception for a row of another size
    than the header is never thrown: [load] of a file that can be opened
    returns, and otherwise throws the exception of the failed open. *)
Theorem read_line_width_load_never_mismatch :
  (∀ sep file column_count,
     let line := (getline file EmptyString newline).2 in
     let r := (read_line sep file column_count).2 in
     length r = column_count ∧
     r = resize column_count EmptyString (split sep line) ∧
     ∀ col, length (split sep line) ≤ col < column_count →
            r !! col = Some EmptyString) ∧
  (∀ fs filename t,
     match files fs !! filename with
     | Some _ => ∃ t', load fs filename t = Ret tt t'
     | None => load fs filename t = Throw {| what := open_what "load" filename |} t
     end) ∧
  (∀ fs filename t row reported expected t',
     load fs filename t ≠
       Throw {| what := load_row_what row reported expected |} t').
Proof.
  split_and!.
  - intros sep file cc line r. subst line r. rewrite read_line_resize.
    split_and!; [apply length_resize | done |].
    intros col [Hge Hlt]. rewrite resize_ge by lia.
    rewrite lookup_app_r by done. apply lookup_replicate_2. lia.
  - intros fs filename t. destruct (files fs !! filename) as [content|] eqn:Hfile.
    + eexists. by apply load_open.
    + by apply load_not_open.
  - intros fs filename t row reported expected t'.
    destruct (files fs !! filename) as [content|] eqn:Hfile.
    + by rewrite (load_open _ _ content).
    + rewrite load_not_open by done. by intros [=].
Qed.

(** ** The text written by save *)

Section text.
Implicit Types (s w x y : string) (d a : ascii) (line : row_t).

Lemma app_cons a s x : String a s +:+ x = String a (s +:+ x).
Proof. done. Qed.

Lemma app_nil_r s : s +:+ EmptyString = s.
Proof. induction s as [|a s IH]; [done|]. by rewrite app_cons, IH. Qed.

Lemma app_assoc s x y : (s +:+ x) +:+ y = s +:+ x +:+ y.
Proof. induction s as [|a s IH]; [done|]. by rewrite !app_cons, IH. Qed.

Lemma count_app d s x : Str.count d (s +:+ x) = Str.count d s + Str.count d x.
Proof.
  induction s as [|a s IH]; [done|]. rewrite app_cons. simpl. rewrite IH. lia.
Qed.

Lemma drop_app_length s x : Str.drop (String.length s) (s +:+ x) = x.
Proof. induction s as [|a s IH]; [by destruct x|]. by rewrite app_cons. Qed.

Lemma until_app d s x :
  Str.count d s = 0 → Str.until d (s +:+ String d x) = (s, true).
Proof.
  induction s as [|a s IH]; simpl.
  - intros _. change (EmptyString +:+ String d x) with (String d x). simpl.
    by rewrite Ascii.eqb_refl.
  - destruct (Ascii.eqb a d); [done|].
    intros Hs. by rewrite IH.
Qed.

Lemma until_plain d s : Str.count d s = 0 → Str.until d s = (s, false).
Proof.
  induction s as [|a s IH]; simpl; [done|].
  destruct (Ascii.eqb a d); [done|]. intros Hs. by rewrite IH.
Qed.

Lemma split_plain d s : Str.count d s = 0 → split d s = [s].
Proof.
  induction s as [|a s IH]; simpl; [done|].
  destruct (Ascii.eqb a d); [done|]. intros Hs. by rewrite IH.
Qed.

Lemma split_app d s x :
  Str.count d s = 0 → split d (s +:+ String d x) = s :: split d x.
Proof.
  induction s as [|a s IH]; simpl.
  - intros _. change (EmptyString +:+ String d x) with (String d x). simpl.
    by rewrite Ascii.eqb_refl.
  - destruct (Ascii.eqb a d); [done|].
    intros Hs. by rewrite IH.
Qed.

Lemma split_join_tail d w others :
  Str.count d w = 0 →
  Forall (λ f, Str.count d f = 0) others →
  split d (w +:+ join_tail d others) = w :: others.
Proof.
  intros Hw Hothers. revert w Hw.
  induction Hothers as [|f others Hf _ IH]; intros w Hw; simpl.
  - rewrite app_nil_r. by apply split_plain.
  - rewrite split_app by done. by rewrite IH.
Qed.

Lemma split_join d line :
  line ≠ [] → Forall (λ f, Str.count d f = 0) line → split d (join d line) = line.
Proof.
  destruct line as [|w others]; [done|]. intros _ Hline.
  apply Forall_cons in Hline as [Hw Hothers]. by apply split_join_tail.
Qed.

Lemma count_join_tail d a others :
  a ≠ d →
  Forall (λ f, Str.count a f = 0) others →
  Str.count a (join_tail d others) = 0.
Proof.
  intros Hne. induction 1 as [|f others Hf _ IH]; simpl; [done|].
  rewrite count_app, Hf, IH. by destruct (Ascii.eqb_spec d a).
Qed.

Lemma count_join d a line :
  a ≠ d → Forall (λ f, Str.count a f = 0) line → Str.count a (join d line) = 0.
Proof.
  intros Hne [|w others Hw Hothers]; simpl; [done|].
  by rewrite count_app, Hw, count_join_tail.
Qed.

Lemma count_sep_join_tail d others :
  Forall (λ f, Str.count d f = 0) others →
  Str.count d (join_tail d others) = length others.
Proof.
  induction 1 as [|f others Hf _ IH]; simpl; [done|].
  by rewrite Ascii.eqb_refl, count_app, Hf, IH.
Qed.

Lemma count_sep_join d line :
  Forall (λ f, Str.count d f = 0) line →
  Str.count d (join d line) + 1 = length line ∨ line = [].
Proof.
  intros [|w others Hw Hothers]; simpl; [by right|]. left.
  rewrite count_app, Hw, count_sep_join_tail by done. lia.
Qed.

Lemma join_nonempty d line :
  line ≠ [] → line ≠ [EmptyString] → join d line ≠ EmptyString.
Proof.
  destruct line as [|w [|f others]]; simpl; [done| |].
  - rewrite app_nil_r. congruence.
  - intros _ _. by destruct w.
Qed.

End text.

(** ** save, then load *)

Section round_trip.
Implicit Types (fs : filesystem) (t : basic_csv) (file : istream) (line : row_t).

Lemma foldl_join_tail sep others : ∀ text,
  foldl (λ out field, out +:+ String sep field) text others =
    text +:+ join_tail sep others.
Proof.
  induction others as [|f others IH]; intros text; simpl.
  - by rewrite app_nil_r.
  - by rewrite IH, app_assoc.
Qed.

Lemma write_line_join sep text line :
  line ≠ [] →
  write_line sep text line = Some (text +:+ join sep line +:+ nl).
Proof.
  destruct line as [|w others]; [done|]. intros _. simpl.
  by rewrite foldl_join_tail, !app_assoc.
Qed.

Lemma write_rows_join_lines sep rs : ∀ text,
  Forall (λ r, r ≠ []) rs →
  write_rows sep text rs = Some (text +:+ join_lines sep rs).
Proof.
  induction rs as [|r rs IH]; intros text Hrs; simpl.
  - by rewrite app_nil_r.
  - apply Forall_cons in Hrs as [Hr Hrs].
    rewrite write_line_join by done. rewrite IH by done.
    unfold nl. by rewrite !app_assoc.
Qed.

(** [save] writes the text of the table. *)
Lemma save_text filename t fs :
  filename ∉ write_protected fs →
  m_header t ≠ [] →
  Forall (λ r, r ≠ []) (m_rows t) →
  save filename t fs = Ret tt (ofstream_close fs filename (text_of t)).
Proof.
  intros Hopen Hhdr Hrows. unfold save. rewrite decide_False by done.
  rewrite write_line_join by done. rewrite write_rows_join_lines by done.
  unfold text_of, nl. by rewrite !app_assoc.
Qed.

(** [read_line] on a stream whose next line ends with a newline. *)
Lemma read_line_next sep file column_count l s :
  good file = true →
  rest file = l +:+ String newline s →
  Str.count newline l = 0 →
  ∃ file', read_line sep file column_count =
             (file', resize column_count EmptyString (split sep l)) ∧
           good file' = true ∧ rest file' = s.
Proof.
  intros Hgood Hrest Hl. unfold read_line, getline.
  rewrite Hgood, Hrest, until_app by done.
  eexists. split; [|split].
  - f_equal. rewrite <-(pending_open_on sep l).
    by rewrite (read_fields_pending sep column_count 0 _ []).
  - apply andb_true_iff in Hgood as [He Hf]. unfold good. simpl. by rewrite He, Hf.
  - unfold rest in *. simpl. rewrite <-Nat.add_assoc, drop_add, Hrest.
    rewrite drop_add, drop_app_length. done.
Qed.

(** [read_line] on a stream that has nothing left. *)
Lemma read_line_at_end sep file column_count :
  rest file = EmptyString →
  (read_line sep file column_count).2 = replicate column_count EmptyString.
Proof.
  intros Hrest. rewrite read_line_resize. unfold getline.
  destruct (good file); rewrite ?Hrest; simpl; by destruct column_count as [|[|n]].
Qed.

Lemma read_rows_join_lines sep column_count rs : ∀ file,
  sep ≠ newline →
  Forall (λ r, length r = column_count ∧ Forall (plain sep) r) rs →
  0 < column_count →
  good file = true →
  rest file = join_lines sep rs →
  read_rows sep (length rs + 1) column_count file =
    rs ++ [replicate column_count EmptyString].
Proof.
  intros file Hsep Hrs Hcc. revert file.
  induction Hrs as [|r rs [Hlen Hplain] _ IH]; intros file Hgood Hrest; simpl.
  - pose proof (read_line_at_end sep file column_count Hrest) as Hend.
    destruct (read_line sep file column_count) as [file' r']. simpl in Hend.
    by rewrite Hend.
  - destruct (read_line_next sep file column_count (join sep r) (join_lines sep rs))
      as (file' & -> & Hgood' & Hrest'); [done..| |].
    { apply count_join; [done|].
      eapply Forall_impl; [exact Hplain|]. by intros f [_ ?]. }
    rewrite split_join, resize_all_alt, IH; [done..| |].
    + intros ->. simpl in Hlen. lia.
    + eapply Forall_impl; [exact Hplain|]. by intros f [? _].
Qed.

Lemma count_newline_join_lines sep rs :
  sep ≠ newline →
  Forall (λ r, Forall (plain sep) r) rs →
  Str.count newline (join_lines sep rs) = length rs.
Proof.
  intros Hsep. induction 1 as [|r rs Hplain _ IH]; simpl; [done|].
  rewrite count_app. simpl. rewrite IH, count_join; [lia|done|].
  eapply Forall_impl; [exact Hplain|]. by intros f [_ ?].
Qed.

Lemma count_columns_after_count sep content :
  count_columns sep (count_rows (open_on content)).1 =
    ((getline (open_on content) EmptyString newline).1,
     columns_of sep (first_line content)).
Proof.
  rewrite <-count_columns_first_line. unfold count_columns.
  change (seekg_beg (count_rows (open_on content)).1) with (open_on content).
  by destruct (getline (open_on content) EmptyString newline).
Qed.

Lemma seekg_beg_first_line content :
  content ≠ EmptyString →
  seekg_beg (getline (open_on content) EmptyString newline).1 = open_on content.
Proof.
  intros Hne. unfold getline, rest. simpl.
  destruct (Str.until newline content) as [w found] eqn:Hu.
  destruct found; [done|]. apply until_not_found in Hu as [_ ->].
  by destruct content.
Qed.

(** What [load] reads from the text of a storable table: its header,
    its rows, and one more row of empty fields for the newline that
    ends the last line. *)
Lemma parse_text_of t :
  storable t →
  parse (m_separator t) (text_of t) =
    (m_header t,
     m_rows t ++ [replicate (length (m_header t)) EmptyString]).
Proof.
  intros [Hsep [Hhdr Hhdr'] Hnames Hrows]. unfold parse.
  assert (Forall (λ f, Str.count (m_separator t) f = 0) (m_header t)) as Hnosep.
  { eapply Forall_impl; [exact Hnames|]. by intros f [? _]. }
  assert (Str.count newline (join (m_separator t) (m_header t)) = 0) as Hline.
  { apply count_join; [done|].
    eapply Forall_impl; [exact Hnames|]. by intros f [_ ?]. }
  assert (first_line (text_of t) = join (m_separator t) (m_header t)) as Hfirst.
  { rewrite <-until_first_line. unfold text_of. by rewrite until_app. }
  assert (columns_of (m_separator t) (first_line (text_of t)) = length (m_header t))
    as Hcols.
  { rewrite Hfirst. unfold columns_of.
    rewrite decide_False by by apply join_nonempty.
    by destruct (count_sep_join (m_separator t) (m_header t) Hnosep). }
  assert (Str.count newline (text_of t) = length (m_rows t) + 1) as Hcount.
  { unfold text_of. rewrite count_app, Hline. simpl.
    rewrite count_newline_join_lines; [lia|done|].
    eapply Forall_impl; [exact Hrows|]. by intros r [_ ?]. }
  pose proof (count_columns_after_count (m_separator t) (text_of t)) as Hcc.
  destruct (count_rows (open_on (text_of t))) as [file n] eqn:Hn.
  injection Hn as _ <-. simpl in Hcc. rewrite Hcc, Hcols. clear Hcc.
  change (Str.count newline (rest (open_on (text_of t))))
    with (Str.count newline (text_of t)). rewrite Hcount.
  rewrite seekg_beg_first_line.
  2:{ unfold text_of. by destruct (join _ _). }
  destruct (read_line_next (m_separator t) (open_on (text_of t))
              (length (m_header t)) (join (m_separator t) (m_header t))
              (join_lines (m_separator t) (m_rows t)))
    as (file' & -> & Hgood' & Hrest'); [done..|].
  rewrite split_join, resize_all by done. f_equal.
  apply read_rows_join_lines; [done..| |done|done].
  destruct (m_header t); [done | simpl; lia].
Qed.

(** X7: whatever the storable table, [save] followed by [load] into a
    table just constructed with the same separator gives the header back
    and the rows followed by one row of empty fields. *)
Lemma save_load_extra_row t fs filename :
  storable t →
  filename ∉ write_protected fs →
  ∃ fs', save filename t fs = Ret tt fs' ∧
         load fs' filename (basic_csv_sep (m_separator t)) =
           Ret tt {| m_separator := m_separator t;
                     m_header := m_header t;
                     m_rows := m_rows t ++
                               [replicate (length (m_header t)) EmptyString] |}.
Proof.
  intros Hst Hopen. eexists. split.
  - apply save_text; [done|apply Hst|].
    destruct Hst as [_ [Hhdr _] _ Hrows].
    eapply Forall_impl; [exact Hrows|]. intros r [Hlen _] ->.
    by destruct (m_header t).
  - rewrite (load_open _ _ (text_of t)) by apply lookup_insert_eq.
    simpl. by rewrite parse_text_of.
Qed.

(** *** Files whose last line is not ended by a newline *)

Lemma read_line_last sep file column_count l :
  good file = true →
  rest file = l →
  Str.count newline l = 0 →
  (read_line sep file column_count).2 =
    resize column_count EmptyString (split sep l).
Proof.
  intros Hgood Hrest Hl. rewrite read_line_resize. unfold getline.
  by rewrite Hgood, Hrest, until_plain.
Qed.

Lemma read_rows_unlines sep column_count rs : ∀ file,
  sep ≠ newline →
  Forall (λ r, length r = column_count ∧ Forall (plain sep) r) rs →
  0 < column_count →
  good file = true →
  rest file = unlines sep rs →
  read_rows sep (length rs) column_count file = rs.
Proof.
  intros file Hsep Hrs Hcc. revert file.
  induction Hrs as [|r rs [Hlen Hplain] Hrs IH]; intros file Hgood Hrest; [done|].
  assert (Str.count newline (join sep r) = 0) as Hline.
  { apply count_join; [done|].
    eapply Forall_impl; [exact Hplain|]. by intros f [_ ?]. }
  assert (resize column_count EmptyString (split sep (join sep r)) = r) as Hr.
  { rewrite split_join, resize_all_alt; [done..| |].
    - intros ->. simpl in Hlen. lia.
    - eapply Forall_impl; [exact Hplain|]. by intros f [? _]. }
  cbn [length read_rows]. destruct rs as [|r' rs].
  - pose proof (read_line_last sep file column_count _ Hgood Hrest Hline) as Hlast.
    destruct (read_line sep file column_count) as [file' r0]. simpl in *.
    by rewrite Hlast, Hr.
  - destruct (read_line_next sep file column_count (join sep r) (unlines sep (r' :: rs)))
      as (file' & -> & Hgood' & Hrest'); [done..|].
    by rewrite Hr, IH.
Qed.

Lemma count_newline_unlines sep rs :
  sep ≠ newline →
  Forall (λ r, Forall (plain sep) r) rs →
  Str.count newline (unlines sep rs) = length rs - 1.
Proof.
  intros Hsep. induction 1 as [|r rs Hplain Hrs IH]; [done|].
  assert (Str.count newline (join sep r) = 0) as Hline.
  { apply count_join; [done|].
    eapply Forall_impl; [exact Hplain|]. by intros f [_ ?]. }
  destruct rs as [|r' rs]; [done|].
  change (unlines sep (r :: r' :: rs))
    with (join sep r +:+ String newline (unlines sep (r' :: rs))).
  rewrite count_app, Hline. simpl in *. rewrite IH. lia.
Qed.

Lemma first_line_unlines sep r rs :
  Str.count newline (join sep r) = 0 →
  first_line (unlines sep (r :: rs)) = join sep r.
Proof.
  intros Hline. rewrite <-until_first_line. destruct rs as [|r' rs].
  - simpl. by rewrite until_plain.
  - change (unlines sep (r :: r' :: rs))
      with (join sep r +:+ String newline (unlines sep (r' :: rs))).
    by rewrite until_app.
Qed.

(** What [load] reads from the lines of a storable table when the last
    line is not ended by a newline: the header and the rows, and
    nothing else. *)
Lemma parse_text_open_end t :
  storable t →
  parse (m_separator t) (text_open_end t) = (m_header t, m_rows t).
Proof.
  intros [Hsep [Hhdr Hhdr'] Hnames Hrows]. unfold parse.
  assert (Forall (λ f, Str.count (m_separator t) f = 0) (m_header t)) as Hnosep.
  { eapply Forall_impl; [exact Hnames|]. by intros f [? _]. }
  assert (Str.count newline (join (m_separator t) (m_header t)) = 0) as Hline.
  { apply count_join; [done|].
    eapply Forall_impl; [exact Hnames|]. by intros f [_ ?]. }
  assert (columns_of (m_separator t) (first_line (text_open_end t)) =
            length (m_header t)) as Hcols.
  { unfold text_open_end. rewrite first_line_unlines by done. unfold columns_of.
    rewrite decide_False by by apply join_nonempty.
    by destruct (count_sep_join (m_separator t) (m_header t) Hnosep). }
  assert (Str.count newline (text_open_end t) = length (m_rows t)) as Hcount.
  { unfold text_open_end. rewrite count_newline_unlines; [simpl; lia|done|].
    constructor; [done|].
    eapply Forall_impl; [exact Hrows|]. by intros r [_ ?]. }
  assert (text_open_end t ≠ EmptyString) as Hne.
  { pose proof (join_nonempty (m_separator t) (m_header t) Hhdr Hhdr') as Hj.
    unfold text_open_end. simpl.
    destruct (m_rows t); [done|]. by destruct (join _ _). }
  pose proof (count_columns_after_count (m_separator t) (text_open_end t)) as Hcc.
  destruct (count_rows (open_on (text_open_end t))) as [file n] eqn:Hn.
  injection Hn as _ <-. simpl in Hcc. rewrite Hcc, Hcols. clear Hcc.
  change (Str.count newline (rest (open_on (text_open_end t))))
    with (Str.count newline (text_open_end t)). rewrite Hcount.
  rewrite seekg_beg_first_line by done.
  assert (0 < length (m_header t)) as Hpos
    by (destruct (m_header t); [done | simpl; lia]).
  assert (read_rows (m_separator t) (length (m_header t :: m_rows t))
            (length (m_header t)) (open_on (text_open_end t)) =
          m_header t :: m_rows t) as Hread.
  { apply read_rows_unlines; [done| |done..]. by constructor. }
  cbn [length read_rows] in Hread.
  destruct (read_line (m_separator t) (open_on (text_open_end t))
              (length (m_header t))) as [file' hdr].
  by injection Hread as -> ->.
Qed.

(** X8: a storable table is what [load] makes of its lines, when the
    last of them is not ended by a newline. *)
Lemma load_text_open_end t fs filename :
  storable t →
  files fs !! filename = Some (text_open_end t) →
  load fs filename (basic_csv_sep (m_separator t)) = Ret tt t.
Proof.
  intros Hst Hfile. rewrite (load_open _ _ (text_open_end t)) by done.
  simpl. rewrite parse_text_open_end by done. by destruct t.
Qed.

Lemma abc_table_storable : storable abc_table.
Proof.
  split; simpl.
  - done.
  - done.
  - by repeat constructor.
  - by repeat constructor.
Qed.

End round_trip.

(** ** load, line by line *)

Section load_by_lines.
Implicit Types (fs : filesystem) (t : basic_csv) (file : istream) (s w : string).

Lemma until_found_count d s w :
  Str.until d s = (w, true) →
  Str.count d s = S (Str.count d (Str.drop (String.length w + 1) s)).
Proof.
  revert w. induction s as [|a s IH]; intros w; simpl; [done|].
  destruct (Ascii.eqb a d) eqn:Ha.
  - by intros [= <-].
  - destruct (Str.until d s) as [w' found] eqn:Hu. intros [= <- ->].
    simpl. by rewrite (IH w' eq_refl).
Qed.

Lemma until_not_found_count d s w :
  Str.until d s = (w, false) → Str.count d s = 0.
Proof.
  revert w. induction s as [|a s IH]; intros w; simpl; [done|].
  destruct (Ascii.eqb a d) eqn:Ha; [done|].
  destruct (Str.until d s) as [w' found] eqn:Hu. intros [= <- ->].
  by rewrite (IH w' eq_refl).
Qed.

Lemma split_first_line s : ∃ ls, split newline s = first_line s :: ls.
Proof.
  induction s as [|a s [ls IH]]; simpl; [by eexists|].
  destruct (Ascii.eqb a newline); [by eexists|]. rewrite IH. by eexists.
Qed.

Lemma getline_found file str d w :
  good file = true →
  Str.until d (rest file) = (w, true) →
  ∃ file', getline file str d = (file', w) ∧ good file' = true ∧
           rest file' = Str.drop (String.length w + 1) (rest file).
Proof.
  intros Hgood Hu. unfold getline. rewrite Hgood, Hu.
  eexists. split; [done|]. apply andb_true_iff in Hgood as [He Hf].
  unfold good, rest. simpl. rewrite He, Hf. split; [done|].
  by rewrite <-Nat.add_assoc, drop_add.
Qed.

Lemma read_line_fst sep file column_count :
  (read_line sep file column_count).1 = (getline file EmptyString newline).1.
Proof. unfold read_line. by destruct (getline file EmptyString newline). Qed.

(** The rows read from a good stream are the lines it still holds, an
    empty line after a last newline being one of them, each cut at the
    separator and resized to [column_count] fields. *)
Lemma read_rows_split sep column_count n : ∀ s file,
  Str.count newline s = n →
  good file = true →
  rest file = s →
  read_rows sep (n + 1) column_count file =
    (λ l, resize column_count EmptyString (split sep l)) <$> split newline s.
Proof.
  induction n as [|n IH]; intros s file Hn Hgood Hrest;
    cbn [Nat.add read_rows];
    pose proof (read_line_resize sep file column_count) as Hrow;
    pose proof (read_line_fst sep file column_count) as Hfile;
    destruct (read_line sep file column_count) as [file1 r]; simpl in Hrow, Hfile;
    subst r file1.
  - unfold getline. rewrite Hgood, Hrest, until_plain by done. simpl.
    by rewrite (split_plain newline s).
  - destruct (Str.until newline s) as [w found] eqn:Hu.
    destruct found; [|apply until_not_found_count in Hu; congruence].
    destruct (getline_found file EmptyString newline w) as (file' & -> & Hgood' & Hrest');
      [done|by rewrite Hrest|].
    rewrite (until_found _ _ _ Hu). rewrite fmap_cons. simpl. f_equal.
    apply IH; [|done|by rewrite Hrest', Hrest].
    apply until_found_count in Hu. lia.
Qed.

Lemma parse_length sep content :
  length (parse sep content).2 = Str.count newline content.
Proof.
  unfold parse.
  destruct (count_rows (open_on content)) as [file n] eqn:Hn.
  injection Hn as _ <-.
  destruct (count_columns sep file) as [file1 cc].
  destruct (read_line sep (seekg_beg file1) cc) as [file2 hdr].
  simpl. by rewrite read_rows_length.
Qed.

(** What [load] reads, in terms of the lines of the text. *)
Lemma parse_split sep content :
  parse sep content =
    (resize (columns_of sep (first_line content)) EmptyString
       (split sep (first_line content)),
     (λ l, resize (columns_of sep (first_line content)) EmptyString (split sep l))
       <$> tail (split newline content)).
Proof.
  destruct (decide (content = EmptyString)) as [->|Hne]; [done|].
  unfold parse.
  pose proof (count_columns_after_count sep content) as Hcc.
  destruct (count_rows (open_on content)) as [file n] eqn:Hn.
  injection Hn as _ <-. simpl in Hcc. rewrite Hcc. clear Hcc.
  rewrite seekg_beg_first_line by done.
  pose proof (read_rows_split sep (columns_of sep (first_line content))
                (Str.count newline content) content (open_on content)
                eq_refl eq_refl eq_refl) as Hread.
  rewrite Nat.add_1_r in Hread. cbn [read_rows] in Hread.
  change (rest (open_on content)) with content.
  destruct (read_line sep (open_on content) _) as [file' hdr].
  destruct (split_first_line content) as [ls Hls]. rewrite Hls in Hread |- *.
  rewrite fmap_cons in Hread. by injection Hread as -> ->.
Qed.

End load_by_lines.

(** ** Further properties of load, save and the table operations *)

Lemma write_rows_empty_row sep rs : ∀ text,
  [] ∈ rs → write_rows sep text rs = None.
Proof.
  induction rs as [|r rs IH]; intros text Hin; [by apply elem_of_nil in Hin|].
  apply elem_of_cons in Hin as [<-|Hin]; [done|].
  simpl. destruct (write_line sep text r); [by apply IH | done].
Qed.

(** X1: [load] of a file that can be opened cuts its text at the
    newlines; the first piece gives the header and every later piece,
    the empty one after a last newline too, gives one row, appended in
    order.  Each piece is cut at the separator and then shortened, or
    filled up with empty strings, to the number of columns of the first
    line. *)
Theorem load_by_lines fs filename content t :
  files fs !! filename = Some content →
  load fs filename t =
    Ret tt
      {| m_separator := m_separator t;
         m_header :=
           resize (columns_of (m_separator t) (first_line content)) EmptyString
             (split (m_separator t) (first_line content));
         m_rows :=
           m_rows t ++
           ((λ l, resize (columns_of (m_separator t) (first_line content))
                    EmptyString (split (m_separator t) l))
              <$> tail (split newline content)) |}.
Proof. intros Hfile. by rewrite (load_open _ _ content), parse_split. Qed.

Lemma load_by_lines_witness :
  load (one_file "short.csv" "a,b,c;d") "short.csv" (basic_csv_sep ";"%char) =
    Ret tt (mk_csv ";"%char ["a,b,c"; "d"] []).
Proof.
  rewrite (load_by_lines (one_file "short.csv" "a,b,c;d") "short.csv" "a,b,c;d");
    reflexivity.
Defined.

(** X2: [load] of a file that can be opened appends exactly as many
    rows as the file holds newline characters. *)
Theorem load_row_count fs filename content t :
  files fs !! filename = Some content →
  ∃ t', load fs filename t = Ret tt t' ∧
        length (rows t') = length (rows t) + Str.count newline content.
Proof.
  intros Hfile. eexists. split; [by apply load_open|].
  unfold rows. simpl. by rewrite length_app, parse_length.
Qed.

Lemma load_row_count_witness :
  ∃ t', load (one_file "xy.csv" xy_text) "xy.csv" abc_table = Ret tt t' ∧
        length (rows t') = 2 + 3.
Proof.
  apply (load_row_count (one_file "xy.csv" xy_text) "xy.csv" xy_text abc_table).
  reflexivity.
Defined.

(** X3: when the first line of the file is not empty, the header after
    [load] is the list of the pieces of that line between separators. *)
Theorem load_header_fields fs filename content t :
  files fs !! filename = Some content →
  first_line content ≠ EmptyString →
  ∃ t', load fs filename t = Ret tt t' ∧
        header t' = split (m_separator t) (first_line content).
Proof.
  intros Hfile Hline. eexists. split; [by apply load_open|].
  unfold header. simpl. rewrite parse_split. simpl.
  apply resize_all_alt. unfold columns_of.
  by rewrite decide_False, split_length.
Qed.

Lemma load_header_fields_witness :
  ∃ t', load (one_file "xy.csv" xy_text) "xy.csv" basic_csv_default = Ret tt t' ∧
        header t' = ["x"; "y"].
Proof.
  apply (load_header_fields (one_file "xy.csv" xy_text) "xy.csv" xy_text
           basic_csv_default); [reflexivity | vm_compute; discriminate].
Defined.

(** X4: when the file is empty or starts with an empty line, [load]
    works with zero columns: the header becomes empty and one empty row
    is appended for every newline of the file, whatever the lines
    hold. *)
Theorem load_blank_first_line fs filename content t :
  files fs !! filename = Some content →
  first_line content = EmptyString →
  load fs filename t =
    Ret tt {| m_separator := m_separator t;
              m_header := [];
              m_rows := m_rows t ++ replicate (Str.count newline content) [] |}.
Proof.
  intros Hfile Hline. rewrite (load_open _ _ content), parse_split by done.
  rewrite Hline. simpl. do 3 f_equal.
  rewrite (const_fmap _ _ []) by (intros i l _; apply resize_0).
  f_equal. pose proof (split_length newline content) as Hlen.
  destruct (split_first_line content) as [ls Hls]. rewrite Hls in Hlen |- *.
  simpl in *. lia.
Qed.

Lemma load_blank_first_line_witness :
  load (one_file "blank.csv" (nl +:+ xy_text)) "blank.csv" basic_csv_default =
    Ret tt (mk_csv ","%char [] [[]; []; []; []]).
Proof.
  rewrite (load_blank_first_line (one_file "blank.csv" (nl +:+ xy_text))
             "blank.csv" (nl +:+ xy_text)); reflexivity.
Defined.

(** X5: the three outcomes of [save].  It throws, and writes nothing,
    when the file cannot be opened; it is undefined when the header is
    empty or some row is empty, because [write_line] reads the first
    field of every line it writes; otherwise it returns and the file
    holds the line of the header followed by the lines of the rows, each
    one ended by a newline. *)
Theorem save_outcome (filename : string) (t : basic_csv) (fs : filesystem) :
  save filename t fs =
    if decide (filename ∈ write_protected fs) then
      Throw {| what := open_what "save" filename |} fs
    else if decide (m_header t = [] ∨ [] ∈ m_rows t) then Undefined
    else Ret tt (ofstream_close fs filename (text_of t)).
Proof.
  destruct (decide (filename ∈ write_protected fs)) as [Hin|Hout].
  - unfold save. by rewrite decide_True.
  - destruct (decide (m_header t = [] ∨ [] ∈ m_rows t)) as [[Hhdr|Hrow]|Hok].
    + unfold save. rewrite decide_False by done. by rewrite Hhdr.
    + unfold save. rewrite decide_False by done.
      destruct (write_line _ _ (m_header t)); [|done].
      by rewrite write_rows_empty_row.
    + apply save_text; [done|tauto|].
      apply Forall_forall. intros r Hr ->. tauto.
Qed.

(** X6: a line written by [write_line] is read back by [read_line]:
    when the fields hold neither the separator nor a newline, reading
    the written text, whatever follows it, gives the fields again, cut
    or filled up to [column_count], and leaves the stream good and in
    front of what follows; with as many columns as the line has fields
    the row read is the line. *)
Theorem write_line_read_line sep (line : row_t) (text more : string) column_count :
  sep ≠ newline →
  Forall (plain sep) line →
  write_line sep EmptyString line = Some text →
  (∃ file', read_line sep (open_on (text +:+ more)) column_count =
              (file', resize column_count EmptyString line) ∧
            good file' = true ∧ rest file' = more) ∧
  (read_line sep (open_on (text +:+ more)) (length line)).2 = line.
Proof.
  intros Hsep Hplain Hwrite.
  assert (line ≠ []) as Hne by (by intros ->).
  rewrite write_line_join in Hwrite by done. injection Hwrite as <-.
  assert (∀ cc, ∃ file', read_line sep
             (open_on ((EmptyString +:+ join sep line +:+ nl) +:+ more)) cc =
             (file', resize cc EmptyString line) ∧
           good file' = true ∧ rest file' = more) as Hread.
  { intros cc.
    destruct (read_line_next sep
                (open_on ((EmptyString +:+ join sep line +:+ nl) +:+ more)) cc
                (join sep line) more) as (file' & Hrl & Hgood & Hrest).
    - done.
    - change (EmptyString +:+ join sep line +:+ nl) with (join sep line +:+ nl).
      unfold nl. by rewrite app_assoc.
    - apply count_join; [done|].
      eapply Forall_impl; [exact Hplain|]. by intros f [_ ?].
    - exists file'. rewrite Hrl, split_join; [done..|].
      eapply Forall_impl; [exact Hplain|]. by intros f [? _]. }
  split; [apply Hread|].
  destruct (Hread (length line)) as (file' & -> & _). simpl. apply resize_all.
Qed.

Lemma write_line_read_line_witness :
  (read_line ","%char (open_on (("1,2,3" +:+ nl) +:+ "4,5,6")) 3).2 = ["1"; "2"; "3"].
Proof.
  apply (write_line_read_line ","%char ["1"; "2"; "3"] ("1,2,3" +:+ nl) "4,5,6" 3).
  - vm_compute. discriminate.
  - repeat constructor.
  - reflexivity.
Defined.

Lemma save_load_extra_row_witness :
  ∃ fs', save "t.csv" abc_table no_file = Ret tt fs' ∧
         load fs' "t.csv" basic_csv_default =
           Ret tt (mk_csv ","%char ["a"; "b"; "c"]
                     [["1"; "2"; "3"]; ["4"; "5"; "6"];
                      [EmptyString; EmptyString; EmptyString]]).
Proof.
  apply (save_load_extra_row abc_table no_file "t.csv").
  - split; simpl; [vm_compute; discriminate | split; discriminate | ..];
      repeat constructor.
  - simpl. apply not_elem_of_empty.
Defined.

Lemma load_text_open_end_witness :
  load (one_file "xy.csv" xy_text_open_end) "xy.csv" basic_csv_default =
    Ret tt (mk_csv ","%char ["x"; "y"] [["1"; "2"]; ["3"; "4"]]).
Proof.
  apply (load_text_open_end (mk_csv ","%char ["x"; "y"] [["1"; "2"]; ["3"; "4"]])
           (one_file "xy.csv" xy_text_open_end) "xy.csv").
  - split; simpl; [vm_compute; discriminate | split; discriminate | ..];
      repeat constructor.
  - reflexivity.
Defined.

(** X9: [add_row] keeps the table rectangular.  On a table whose rows
    all have the width of the header, a call that returns has appended
    the row and left header and separator alone, and every row still
    has the width of the header; a call that throws has left the table
    as it was; the call is undefined only on a table without rows. *)
Theorem add_row_keeps_width (t : basic_csv) (r : row_t) :
  Forall (λ r0, length r0 = length (header t)) (rows t) →
  match add_row r t with
  | Ret _ t' =>
      length r = length (header t) ∧
      rows t' = rows t ++ [r] ∧ header t' = header t ∧
      m_separator t' = m_separator t ∧
      Forall (λ r0, length r0 = length (header t')) (rows t')
  | Throw _ t' => length r ≠ length (header t) ∧ t' = t
  | Undefined => length r ≠ length (header t) ∧ rows t = []
  end.
Proof.
  unfold add_row, header, rows. intros Hwidth.
  destruct (decide (length r ≠ length (m_header t))) as [Hne|Heq].
  - destruct (last (m_rows t)) eqn:Hlast; [done|].
    by apply last_None in Hlast.
  - apply dec_stable in Heq. simpl. split_and!; [done..|].
    apply Forall_app. split; [done|]. by constructor.
Qed.

Lemma add_row_keeps_width_witness :
  match add_row ["7"; "8"; "9"] abc_table with
  | Ret _ t' =>
      length ["7"; "8"; "9"] = length (header abc_table) ∧
      rows t' = rows abc_table ++ [["7"; "8"; "9"]] ∧ header t' = header abc_table ∧
      m_separator t' = m_separator abc_table ∧
      Forall (λ r0, length r0 = length (header t')) (rows t')
  | Throw _ t' => length ["7"; "8"; "9"] ≠ length (header abc_table) ∧ t' = abc_table
  | Undefined => length ["7"; "8"; "9"] ≠ length (header abc_table) ∧ rows abc_table = []
  end.
Proof.
  apply (add_row_keeps_width abc_table ["7"; "8"; "9"]).
  simpl. repeat constructor.
Defined.

(** X10: a row that [add_row] accepted is the last one: [row] returns
    it at the index that was the number of rows before the call, returns
    the rows stored before at their indices, and throws at the next
    index. *)
Theorem add_row_then_row (t t' : basic_csv) (r : row_t) :
  add_row r t = Ret tt t' →
  row (length (rows t)) t' = Ret r t' ∧
  (∀ idx r0, rows t !! idx = Some r0 → row idx t' = Ret r0 t') ∧
  row (S (length (rows t))) t' =
    Throw {| what := row_what (S (length (rows t))) |} t'.
Proof.
  unfold add_row, rows. intros Hadd.
  destruct (decide (length r ≠ length (m_header t))); [by destruct (last _)|].
  injection Hadd as <-. unfold row, push_back. simpl. rewrite length_app. simpl.
  split_and!.
  - rewrite decide_False by lia. by rewrite list_lookup_middle.
  - intros idx r0 Hidx. pose proof (lookup_lt_Some _ _ _ Hidx).
    rewrite decide_False by lia. by rewrite lookup_app_l_Some with (x := r0).
  - by rewrite decide_True by lia.
Qed.

Lemma add_row_then_row_witness :
  row 2 (push_back ["7"; "8"; "9"] abc_table) =
    Ret ["7"; "8"; "9"] (push_back ["7"; "8"; "9"] abc_table).
Proof.
  destruct (add_row_then_row abc_table (push_back ["7"; "8"; "9"] abc_table)
              ["7"; "8"; "9"]) as [Hlast _]; [reflexivity | exact Hlast].
Defined.

(** X11: [read_line] does not fail at the end of the input.  On a
    stream that has no character left, or that is not good any more, it
    returns a row of [column_count] empty strings and leaves a stream
    that is not good, so that every later call does the same. *)
Theorem read_line_exhausted sep (file : istream) column_count :
  rest file = EmptyString ∨ good file = false →
  (read_line sep file column_count).2 = replicate column_count EmptyString ∧
  good (read_line sep file column_count).1 = false.
Proof.
  intros Hend. rewrite read_line_resize, read_line_fst. unfold getline.
  assert (resize column_count EmptyString (split sep EmptyString) =
            replicate column_count EmptyString) as Hrow
    by by destruct column_count as [|[|n]].
  destruct (good file) eqn:Hgood.
  - destruct Hend as [Hrest|?]; [|done]. by rewrite Hrest.
  - split; [done|]. unfold good in *. simpl. by rewrite andb_false_r.
Qed.

Lemma read_line_exhausted_witness :
  (read_line ","%char (read_line ","%char (open_on "1,2") 2).1 2).2 =
    [EmptyString; EmptyString] ∧
  good (read_line ","%char (read_line ","%char (open_on "1,2") 2).1 2).1 = false.
Proof.
  apply (read_line_exhausted ","%char (read_line ","%char (open_on "1,2") 2).1 2).
  right. reflexivity.
Defined.

(** ** Fields that hold the separator *)

Lemma split_app_sep d (s x : string) :
  split d (s +:+ String d x) = split d s ++ split d x.
Proof.
  induction s as [|a s IH]; simpl.
  - change (EmptyString +:+ String d x) with (String d x). simpl.
    by rewrite Ascii.eqb_refl.
  - destruct (Ascii.eqb a d); [by rewrite IH|]. rewrite IH.
    pose proof (split_length d s) as Hlen.
    destruct (split d s); [simpl in Hlen; lia | done].
Qed.

Lemma split_join_tail_any d (w : string) (others : row_t) :
  split d (w +:+ join_tail d others) = mjoin (split d <$> w :: others).
Proof.
  revert w. induction others as [|f others IH]; intros w; simpl.
  - by rewrite app_nil_r, (right_id_L [] (++)).
  - by rewrite split_app_sep, IH.
Qed.

(** X12: [save] writes the fields as they are, so a name of the header
    that holds the separator does not come back as one field: after
    [save] and [load] into a table just constructed with the same
    separator, the header is the list of the pieces of the names, every
    name cut at each separator it holds. *)
Theorem save_load_header_pieces (t : basic_csv) (fs : filesystem) (filename : string) :
  m_separator t ≠ newline →
  m_header t ≠ [] ∧ m_header t ≠ [EmptyString] →
  Forall (λ f, Str.count newline f = 0) (m_header t) →
  [] ∉ m_rows t →
  filename ∉ write_protected fs →
  ∃ fs' t', save filename t fs = Ret tt fs' ∧
            load fs' filename (basic_csv_sep (m_separator t)) = Ret tt t' ∧
            header t' = mjoin (split (m_separator t) <$> m_header t).
Proof.
  intros Hsep [Hhdr Hhdr'] Hnames Hrows Hopen.
  exists (ofstream_close fs filename (text_of t)). eexists. split_and!.
  - apply save_text; [done..|]. apply Forall_forall. by intros r Hr ->.
  - by apply (load_open _ _ (text_of t)), lookup_insert_eq.
  - unfold header. simpl. rewrite parse_split. simpl.
    assert (first_line (text_of t) = join (m_separator t) (m_header t)) as ->.
    { rewrite <-until_first_line. unfold text_of.
      by rewrite until_app by by apply count_join. }
    rewrite resize_all_alt.
    + destruct (m_header t) as [|w others]; [done|]. apply split_join_tail_any.
    + unfold columns_of. rewrite decide_False by by apply join_nonempty.
      by rewrite split_length.
Qed.

Lemma save_load_header_pieces_witness :
  ∃ fs' t', save "t.csv" (mk_csv ","%char ["a,b"; "c"] [["1"; "2"]]) no_file = Ret tt fs' ∧
            load fs' "t.csv" (basic_csv_sep ","%char) = Ret tt t' ∧
            header t' = ["a"; "b"; "c"].
Proof.
  apply (save_load_header_pieces (mk_csv ","%char ["a,b"; "c"] [["1"; "2"]])
           no_file "t.csv").
  - vm_compute. discriminate.
  - split; discriminate.
  - repeat constructor.
  - simpl. intros Hin. apply list_elem_of_singleton in Hin. discriminate Hin.
  - simpl. apply not_elem_of_empty.
Defined.
